(** * The multi-step form store of [src/context/MultiStepFormContext.tsx]

    A shallow embedding of the reducer [multiStepFormReducer], of the
    callbacks and derived flags built by the hook [useMultiStepForm], and of
    the guarded context lookup [useMultiStepFormContext], followed by the
    properties of the navigation state machine.

    Conventions of the embedding:
    - a JavaScript number used as an index is an integer ([Z]) or [NaN], and
      [+] and [-] are the exact integer operations: they are the operations
      of the code on doubles as long as operands and result are integers of
      magnitude at most 2^53, which holds of every index into an array and
      of every [Js.safe_integer]; fractions, infinities and the rounding of
      doubles beyond that magnitude are outside the model, and a statement
      about a position that no array bounds carries a [Js.safe_integer]
      hypothesis;
    - a property that may be missing reads as [Undefined] (or [None]);
    - a function that may throw returns a [Js.completion];
    - a plain object used as a record of strings ([formData], a partial
      update) is a finite map from property names to strings. *)

From Stdlib Require Import ZArith Lia.
From stdpp Require Import base option list strings gmap.

#[local] Open Scope string_scope.
#[local] Open Scope Z_scope.

(** ** The fragment of JavaScript the file relies on *)

Module Js.

Inductive number : Type :=
| Int (z : Z)
| NaN.

Inductive value : Type :=
| Undefined
| Num (n : number).

Inductive exn : Type :=
| TypeError
| Error (message : string)
| ReferenceError (name : string).

Inductive completion (A : Type) : Type :=
| Normal (a : A)
| Throw (e : exn).

Arguments Normal {A} a.
Arguments Throw {A} e.

Definition bind {A B : Type} (c : completion A) (k : A -> completion B)
  : completion B :=
  match c with
  | Normal a => k a
  | Throw e => Throw e
  end.

Definition int (z : Z) : value := Num (Int z).

(** [ToNumber]: [undefined] converts to [NaN]. *)
Definition to_number (v : value) : number :=
  match v with
  | Undefined => NaN
  | Num n => n
  end.

(** [Number.isSafeInteger] on an integer: magnitude at most 2^53 - 1. A safe
    integer, the integer before and the integer after it are doubles, so
    adding or subtracting 1 is exact on it. *)
Definition safe_integer (z : Z) : bool :=
  (- (2 ^ 53 - 1) <=? z) && (z <=? 2 ^ 53 - 1).

(** [a + b] and [a - b] on operands that are numbers or [undefined], as
    exact integer operations (see the conventions above for where they are
    those of doubles). *)
Definition add (a b : value) : value :=
  match to_number a, to_number b with
  | Int x, Int y => int (x + y)
  | _, _ => Num NaN
  end.

Definition sub (a b : value) : value :=
  match to_number a, to_number b with
  | Int x, Int y => int (x - y)
  | _, _ => Num NaN
  end.

(** [a === b]: [NaN] is different from everything, itself included. *)
Definition strict_eq (a b : value) : bool :=
  match a, b with
  | Undefined, Undefined => true
  | Num (Int x), Num (Int y) => x =? y
  | _, _ => false
  end.

(** [arr[i]]: the element when [i] is an integer index inside the array,
    [undefined] ([None]) for every other key. *)
Definition index {A : Type} (arr : list A) (i : value) : option A :=
  match i with
  | Num (Int z) => if 0 <=? z then arr !! Z.to_nat z else None
  | _ => None
  end.

(** [arr.length] as a number. *)
Definition len {A : Type} (arr : list A) : Z := Z.of_nat (length arr).

(** [${v}] for a property that holds a string or is missing. *)
Definition template (v : option string) : string :=
  match v with
  | Some s => s
  | None => "undefined"
  end.

(** [...o] inside an object literal: a missing object contributes nothing. *)
Definition spread (o : option (gmap string string)) : gmap string string :=
  default ∅ o.

End Js.

Import Js.

(** ** Data model *)

(** [enum Types]. *)
Module Types.
Definition next : string := "NEXT".
Definition prev : string := "PREV".
Definition goto : string := "GOTO".
Definition updateFormData : string := "UPDATE_FORM_DATA".
End Types.

(** What the reducer is handed as [action]: any value [dispatch] was called
    with. An object is described by the properties the code can read
    ([type], [index], [fields]) and by the [payload] property that the
    declared action types ([ActionMap]) nest the arguments under; a string
    primitive has none of these properties. *)
Module Action.

Record payloadT : Type := {
  payload_index : value;
  payload_fields : option (gmap string string)
}.

Record object : Type := {
  type : option string;
  index : value;
  fields : option (gmap string string);
  payload : option payloadT
}.

Inductive t : Type :=
| Str (s : string)
| Obj (o : object).

(** [action.type], [action.index], [action.fields]. *)
Definition get_type (a : t) : option string :=
  match a with Str _ => None | Obj o => type o end.

Definition get_index (a : t) : value :=
  match a with Str _ => Undefined | Obj o => index o end.

Definition get_fields (a : t) : option (gmap string string) :=
  match a with Str _ => None | Obj o => fields o end.

End Action.

Section Store.

(** [React.ReactElement]: the store never inspects a renderable unit. *)
Context {Elem : Type}.

(** The state object threaded through the reducer: the properties of
    [interface MultiStepForm] that the reducer reads or writes. [steps] is
    optional because the object given to [useReducer] has no such
    property. *)
Record MultiStepForm : Type := {
  activeStepIndex : value;
  activeSubStepIndex : value;
  steps : option (list (list Elem));
  formData : gmap string string
}.

(** [steps[activeStepIndex].length]; [None] when [steps] or
    [steps[activeStepIndex]] is [undefined], where the property read
    throws a [TypeError]. *)
Definition current_step_length (state : MultiStepForm) : option Z :=
  match steps state with
  | None => None
  | Some stps =>
      match Js.index stps (activeStepIndex state) with
      | None => None
      | Some substeps => Some (Js.len substeps)
      end
  end.

Definition multiStepFormReducer (state : MultiStepForm) (action : Action.t)
  : completion MultiStepForm :=
  let ty := Action.get_type action in
  if bool_decide (ty = Some "NEXT") then
    let nextSubStepIndex := Js.add (activeSubStepIndex state) (Js.int 1) in
    match current_step_length state with
    | None => Throw TypeError
    | Some len =>
        if 1 <? len then
          if Js.strict_eq nextSubStepIndex (Js.int len) then
            Normal {| activeStepIndex := Js.add (activeStepIndex state) (Js.int 1);
                      activeSubStepIndex := Js.int 0;
                      steps := steps state;
                      formData := formData state |}
          else
            Normal {| activeStepIndex := activeStepIndex state;
                      activeSubStepIndex := nextSubStepIndex;
                      steps := steps state;
                      formData := formData state |}
        else
          Normal {| activeStepIndex := Js.add (activeStepIndex state) (Js.int 1);
                    activeSubStepIndex := Js.int 0;
                    steps := steps state;
                    formData := formData state |}
    end
  else if bool_decide (ty = Some "PREV") then
    Normal {| activeStepIndex := Js.sub (activeStepIndex state) (Js.int 1);
              activeSubStepIndex := Js.int 0;
              steps := steps state;
              formData := formData state |}
  else if bool_decide (ty = Some "GOTO") then
    let index := Action.get_index action in
    Normal {| activeStepIndex := index;
              activeSubStepIndex := Js.int 0;
              steps := steps state;
              formData := formData state |}
  else if bool_decide (ty = Some "UPDATE_FORM_DATA") then
    let fields := Action.get_fields action in
    Normal {| activeStepIndex := activeStepIndex state;
              activeSubStepIndex := activeSubStepIndex state;
              steps := steps state;
              formData := Js.spread fields ∪ formData state |}
  else
    Throw (Error ("Invalid action type: " +:+ Js.template ty)).

(** Successive dispatches: each action is reduced from the state the
    previous one produced, and the first throw ends the sequence. *)
Fixpoint run (actions : list Action.t) (state : MultiStepForm)
  : completion MultiStepForm :=
  match actions with
  | [] => Normal state
  | action :: rest => Js.bind (multiStepFormReducer state action) (run rest)
  end.

(** *** [useMultiStepForm] *)

Definition initialFormData : gmap string string :=
  list_to_map
    [ ("firstName", ""); ("lastName", ""); ("age", ""); ("street", "");
      ("city", ""); ("state", ""); ("zip", ""); ("email", "");
      ("password", ""); ("code", "") ].

(** The second argument of [useReducer]. *)
Definition initialState : MultiStepForm :=
  {| activeStepIndex := Js.int 0;
     activeSubStepIndex := Js.int 0;
     steps := None;
     formData := initialFormData |}.

(** React's [dispatch] takes one argument, the action, and has the reducer
    compute the next state from the current one; arguments after the first
    are dropped, as for any JavaScript function of one parameter. *)
Definition dispatch (state : MultiStepForm) (action : Action.t)
    (ignored : list Action.t) : completion MultiStepForm :=
  multiStepFormReducer state action.

Definition next (state : MultiStepForm) : completion MultiStepForm :=
  dispatch state (Action.Str Types.next) [].

Definition back (state : MultiStepForm) : completion MultiStepForm :=
  dispatch state (Action.Str Types.prev) [].

Definition goTo (state : MultiStepForm) (index : Z)
  : completion MultiStepForm :=
  dispatch state (Action.Str Types.goto)
    [ Action.Obj {| Action.type := None;
                    Action.index := Js.int index;
                    Action.fields := None;
                    Action.payload := None |} ].

Definition updateFormData (state : MultiStepForm)
    (fields : gmap string string) : completion MultiStepForm :=
  dispatch state (Action.Str Types.updateFormData)
    [ Action.Obj {| Action.type := None;
                    Action.index := Undefined;
                    Action.fields := Some fields;
                    Action.payload := None |} ].


(** *** [useMultiStepFormContext] *)

(** [useContext]: the value of the nearest enclosing provider, or the
    default value of the context when the caller is inside none.
    [providers] lists the values of the enclosing providers, nearest
    first. *)
Definition useContext {V : Type} (defaultValue : V) (providers : list V) : V :=
  hd defaultValue providers.

(** [createContext<MultiStepForm | null>(null)]: a context value is a form
    or [null] ([None]), and the default is [null]. *)
Definition MultiStepFormContext_default : option MultiStepForm := None.

Definition useMultiStepFormContext (providers : list (option MultiStepForm))
  : completion MultiStepForm :=
  let context := useContext MultiStepFormContext_default providers in
  match context with
  | None =>
      Throw (Error
        "useMultiStepFormContext must be used within a MultiStepFormProvider")
  | Some form => Normal form
  end.

(** What the default branch of the reducer throws when [action.type] is
    [undefined]. *)
Definition invalid_undefined : exn := Error "Invalid action type: undefined".

(** *** The tagged actions, as the cases of the reducer read them *)

Definition nextAction : Action.t :=
  Action.Obj {| Action.type := Some Types.next;
                Action.index := Undefined;
                Action.fields := None;
                Action.payload := None |}.

Definition prevAction : Action.t :=
  Action.Obj {| Action.type := Some Types.prev;
                Action.index := Undefined;
                Action.fields := None;
                Action.payload := None |}.

Definition gotoAction (index : Z) : Action.t :=
  Action.Obj {| Action.type := Some Types.goto;
                Action.index := Js.int index;
                Action.fields := None;
                Action.payload := None |}.

Definition updateFormDataAction (fields : gmap string string) : Action.t :=
  Action.Obj {| Action.type := Some Types.updateFormData;
                Action.index := Undefined;
                Action.fields := Some fields;
                Action.payload := None |}.

(** The state at position [(i, j)] of a session over [stps]. *)
Definition at_position (stps : list (list Elem)) (fd : gmap string string)
    (i j : Z) : MultiStepForm :=
  {| activeStepIndex := Js.int i;
     activeSubStepIndex := Js.int j;
     steps := Some stps;
     formData := fd |}.

(** *** The object the hook returns, and notions for the walk of a form *)

(** The identifiers [activeStepIndex], [activeSubStepIndex] and [formData]
    that the hook reads in its [return] are bound by no scope of the module:
    the hook never destructures [state]. They resolve to a property of the
    global object if the host defines one of that name ([Some]), and reading
    them throws a [ReferenceError] otherwise ([None]). *)
Record Globals : Type := {
  global_activeStepIndex : option value;
  global_activeSubStepIndex : option value;
  global_formData : option (gmap string string)
}.

(** A host that defines none of them. *)
Definition no_globals : Globals :=
  {| global_activeStepIndex := None;
     global_activeSubStepIndex := None;
     global_formData := None |}.

Definition resolve {A : Type} (name : string) (binding : option A)
  : completion A :=
  match binding with
  | Some v => Normal v
  | None => Throw (ReferenceError name)
  end.

(** The data properties of the object the hook returns; the callbacks and
    [childFormRef] are references whose evaluation has no effect. *)
Record Returned : Type := {
  ret_activeStepIndex : value;
  ret_activeSubStepIndex : value;
  ret_step : option Elem;
  ret_steps : list (list Elem);
  ret_isFirstStep : bool;
  ret_isLastStep : bool;
  ret_formData : gmap string string
}.

(** One call of the hook: [state] is the current state of the reducer, which
    the body binds and then never reads; [initialSteps] is [props.steps],
    memoised as [steps]. The properties of the returned object are evaluated
    in the order they are written. In [steps[activeStepIndex][activeSubStepIndex]]
    the read of a substep of a step that is [undefined] throws a
    [TypeError], and a substep index outside an existing step reads as
    [undefined] ([None]). *)
Definition useMultiStepForm (globals : Globals) (state : MultiStepForm)
    (initialSteps : list (list Elem)) : completion Returned :=
  let steps := initialSteps in
  Js.bind (resolve "activeStepIndex" (global_activeStepIndex globals))
    (λ activeStepIndex,
  Js.bind (resolve "activeSubStepIndex" (global_activeSubStepIndex globals))
    (λ activeSubStepIndex,
  Js.bind (match Js.index steps activeStepIndex with
           | None => Throw TypeError
           | Some substeps => Normal (Js.index substeps activeSubStepIndex)
           end)
    (λ current,
  Js.bind (resolve "formData" (global_formData globals))
    (λ formData,
  Normal {| ret_activeStepIndex := activeStepIndex;
            ret_activeSubStepIndex := activeSubStepIndex;
            ret_step := current;
            ret_steps := steps;
            ret_isFirstStep := Js.strict_eq activeStepIndex (Js.int 0);
            ret_isLastStep :=
              Js.strict_eq activeStepIndex
                (Js.sub (Js.int (Js.len steps)) (Js.int 1));
            ret_formData := formData |})))).

(** The substep index is the number 0, or a positive index inside the
    current step. *)
Definition substep_in_range (state : MultiStepForm) : bool :=
  match activeSubStepIndex state with
  | Num (Int j) =>
      (j =? 0)
      || match current_step_length state with
         | Some len => (0 <? j) && (j <? len)
         | None => false
         end
  | _ => false
  end.

(** The number of positions a form has: one per substep, and one for a step
    without substeps. *)
Definition units (stps : list (list Elem)) : nat :=
  foldr (λ substeps n, (Nat.max 1 (length substeps) + n)%nat) 0%nat stps.

(** The actions that move the position. *)
Definition is_navigation (o : Action.object) : bool :=
  bool_decide (Action.type o ∈ [Some Types.next; Some Types.prev;
                                Some Types.goto]).



End Store.

Arguments MultiStepForm Elem : clear implicits.

(** ** Concrete step lists

    Renderable units are named by strings. [scenario_steps] is the step list
    [[A], [B1, B2], [C]]; [long_last_steps] ends with a step of two
    substeps. *)

Definition scenario_steps : list (list string) :=
  [ ["A"]; ["B1"; "B2"]; ["C"] ].


Definition resetAction : Action.t :=
  Action.Obj {| Action.type := Some "RESET";
                Action.index := Undefined;
                Action.fields := None;
                Action.payload := None |}.

(** ** Properties *)

Section Properties.

Context {Elem : Type}.

Implicit Types (state : MultiStepForm Elem) (stps : list (list Elem)).
Implicit Types (fd partial : gmap string string) (i j k : Z).

(** *** The reducer, case by case *)

Lemma reducer_NEXT state o :
  Action.type o = Some "NEXT" →
  multiStepFormReducer state (Action.Obj o) =
    match current_step_length state with
    | None => Throw TypeError
    | Some len =>
        if (1 <? len) && negb (Js.strict_eq
              (Js.add (activeSubStepIndex state) (Js.int 1)) (Js.int len))
        then Normal {| activeStepIndex := activeStepIndex state;
                       activeSubStepIndex :=
                         Js.add (activeSubStepIndex state) (Js.int 1);
                       steps := steps state;
                       formData := formData state |}
        else Normal {| activeStepIndex :=
                         Js.add (activeStepIndex state) (Js.int 1);
                       activeSubStepIndex := Js.int 0;
                       steps := steps state;
                       formData := formData state |}
    end.
Proof.
  intros Hty. unfold multiStepFormReducer. cbn [Action.get_type].
  rewrite Hty. rewrite bool_decide_eq_true_2 by reflexivity.
  destruct (current_step_length state) as [len|]; [|reflexivity].
  destruct (1 <? len); [|reflexivity].
  destruct (Js.strict_eq _ _); reflexivity.
Qed.

Lemma reducer_PREV state o :
  Action.type o = Some "PREV" →
  multiStepFormReducer state (Action.Obj o) =
    Normal {| activeStepIndex := Js.sub (activeStepIndex state) (Js.int 1);
              activeSubStepIndex := Js.int 0;
              steps := steps state;
              formData := formData state |}.
Proof.
  intros Hty. unfold multiStepFormReducer. cbn [Action.get_type].
  rewrite Hty. reflexivity.
Qed.

Lemma reducer_GOTO state o :
  Action.type o = Some "GOTO" →
  multiStepFormReducer state (Action.Obj o) =
    Normal {| activeStepIndex := Action.index o;
              activeSubStepIndex := Js.int 0;
              steps := steps state;
              formData := formData state |}.
Proof.
  intros Hty. unfold multiStepFormReducer. cbn [Action.get_type].
  rewrite Hty. reflexivity.
Qed.

Lemma reducer_UPDATE_FORM_DATA state o :
  Action.type o = Some "UPDATE_FORM_DATA" →
  multiStepFormReducer state (Action.Obj o) =
    Normal {| activeStepIndex := activeStepIndex state;
              activeSubStepIndex := activeSubStepIndex state;
              steps := steps state;
              formData := Js.spread (Action.fields o) ∪ formData state |}.
Proof.
  intros Hty. unfold multiStepFormReducer. cbn [Action.get_type].
  rewrite Hty. reflexivity.
Qed.

(** The [default] branch: reached exactly when [action.type] is none of
    the four tags. *)
Lemma reducer_default state action :
  Action.get_type action ≠ Some "NEXT" →
  Action.get_type action ≠ Some "PREV" →
  Action.get_type action ≠ Some "GOTO" →
  Action.get_type action ≠ Some "UPDATE_FORM_DATA" →
  multiStepFormReducer state action =
    Throw (Error ("Invalid action type: "
                  +:+ Js.template (Action.get_type action))).
Proof.
  intros H1 H2 H3 H4. unfold multiStepFormReducer.
  rewrite !bool_decide_eq_false_2 by assumption. reflexivity.
Qed.

(** *** NEXT from an integer position inside the step list *)

Lemma current_step_length_at stps fd i j (substeps : list Elem) :
  Js.index stps (Js.int i) = Some substeps →
  current_step_length (at_position stps fd i j) = Some (Js.len substeps).
Proof.
  intros Hidx. unfold current_step_length, at_position.
  cbn [steps activeStepIndex]. rewrite Hidx. reflexivity.
Qed.

Lemma index_in_range stps i :
  is_Some (Js.index stps (Js.int i)) ↔ 0 ≤ i < Js.len stps.
Proof.
  unfold Js.index, Js.int, Js.len.
  destruct (Z.leb_spec 0 i) as [Hle|Hlt].
  - rewrite lookup_lt_is_Some. lia.
  - split; [intros [x Hx]; discriminate | lia].
Qed.

Lemma advance_within_step stps fd i j (substeps : list Elem) :
  Js.index stps (Js.int i) = Some substeps →
  1 < Js.len substeps →
  j + 1 ≠ Js.len substeps →
  multiStepFormReducer (at_position stps fd i j) nextAction
    = Normal (at_position stps fd i (j + 1)).
Proof.
  intros Hidx Hlen Hne. unfold nextAction.
  rewrite reducer_NEXT by reflexivity.
  rewrite (current_step_length_at _ _ _ _ _ Hidx).
  assert ((1 <? Js.len substeps) = true) as -> by lia.
  cbn [at_position activeSubStepIndex activeStepIndex steps formData
       Js.add Js.to_number Js.int Js.strict_eq andb negb].
  assert ((j + 1 =? Js.len substeps) = false) as -> by lia.
  reflexivity.
Qed.

Lemma advance_to_next_step stps fd i j (substeps : list Elem) :
  Js.index stps (Js.int i) = Some substeps →
  Js.len substeps ≤ 1 ∨ j + 1 = Js.len substeps →
  multiStepFormReducer (at_position stps fd i j) nextAction
    = Normal (at_position stps fd (i + 1) 0).
Proof.
  intros Hidx Hcase. unfold nextAction.
  rewrite reducer_NEXT by reflexivity.
  rewrite (current_step_length_at _ _ _ _ _ Hidx).
  cbn [at_position activeSubStepIndex activeStepIndex steps formData
       Js.add Js.to_number Js.int Js.strict_eq].
  destruct (Z.ltb_spec 1 (Js.len substeps)) as [Hgt|Hle];
    cbn [andb negb]; [|reflexivity].
  assert ((j + 1 =? Js.len substeps) = true) as -> by lia.
  reflexivity.
Qed.

Lemma run_app (l1 l2 : list Action.t) state :
  run (l1 ++ l2) state = Js.bind (run l1 state) (run l2).
Proof.
  revert state. induction l1 as [|a l1 IH]; intros state; [reflexivity|].
  cbn [app run].
  destruct (multiStepFormReducer state a) as [state'|e]; cbn [Js.bind];
    [apply IH | reflexivity].
Qed.

(** [k] advances from substep [j] stay in the step while [j + k] is still
    a substep of it. *)
Lemma advance_n_within_step stps fd i (substeps : list Elem) (k : nat) j :
  Js.index stps (Js.int i) = Some substeps →
  0 ≤ j →
  j + Z.of_nat k < Js.len substeps →
  run (replicate k nextAction) (at_position stps fd i j)
    = Normal (at_position stps fd i (j + Z.of_nat k)).
Proof.
  intros Hidx. revert j. induction k as [|k IH]; intros j Hj Hlt.
  - cbn [replicate run]. f_equal. f_equal. lia.
  - cbn [replicate run].
    rewrite (advance_within_step _ _ _ _ _ Hidx) by lia.
    cbn [Js.bind]. rewrite IH by lia. f_equal. f_equal. lia.
Qed.

(** C1. In a step [s] with [N > 1] substeps, starting at position
    [(s, 0)], the first [k] advances, for every [k ≤ N - 1], lead to
    position [(s, k)]: each of them keeps the step and adds one to the
    substep index. The [N]th advance leads to position [(s + 1, 0)]. *)
Theorem advance_walks_substeps_then_next_step
    stps fd (s : Z) (substeps : list Elem) :
  Js.index stps (Js.int s) = Some substeps →
  1 < Js.len substeps →
  (∀ k : nat, Z.of_nat k ≤ Js.len substeps - 1 →
     run (replicate k nextAction) (at_position stps fd s 0)
       = Normal (at_position stps fd s (Z.of_nat k)))
  ∧ run (replicate (length substeps) nextAction) (at_position stps fd s 0)
      = Normal (at_position stps fd (s + 1) 0).
Proof.
  intros Hidx Hlen. split.
  - intros k Hk.
    rewrite (advance_n_within_step _ _ _ _ _ _ Hidx) by lia.
    reflexivity.
  - assert (length substeps = (Z.to_nat (Js.len substeps - 1) + 1)%nat)
      as -> by (unfold Js.len in *; lia).
    rewrite replicate_add, run_app.
    rewrite (advance_n_within_step _ _ _ _ _ _ Hidx) by lia.
    cbn [Js.bind replicate run].
    rewrite (advance_to_next_step _ _ _ _ _ Hidx) by lia.
    reflexivity.
Qed.

(** *** PREV and GOTO never read the step list *)

Lemma retreat_position (sub : value) (ostps : option (list (list Elem))) fd i :
  multiStepFormReducer
    {| activeStepIndex := Js.int i; activeSubStepIndex := sub;
       steps := ostps; formData := fd |} prevAction
  = Normal {| activeStepIndex := Js.int (i - 1);
              activeSubStepIndex := Js.int 0;
              steps := ostps; formData := fd |}.
Proof. unfold prevAction. rewrite reducer_PREV by reflexivity. reflexivity. Qed.

Lemma goto_position state k :
  multiStepFormReducer state (gotoAction k)
  = Normal {| activeStepIndex := Js.int k;
              activeSubStepIndex := Js.int 0;
              steps := steps state; formData := formData state |}.
Proof. unfold gotoAction. rewrite reducer_GOTO by reflexivity. reflexivity. Qed.

(** C2 (amended). For every prior state whose step index is a safe
    integer, [PREV] yields position [(stepIndex - 1, 0)] whatever the prior
    substep index was. An advance followed by a retreat therefore lands on
    [(stepIndex, 0)] when the advance moved to the next step (the step has
    at most one substep, or the position was on its last substep), and on
    [(stepIndex - 1, 0)] when the advance only moved to the next substep. *)
Theorem retreat_resets_to_start_of_previous_step :
  (∀ (sub : value) (ostps : option (list (list Elem))) fd i,
     Js.safe_integer i = true →
     multiStepFormReducer
       {| activeStepIndex := Js.int i; activeSubStepIndex := sub;
          steps := ostps; formData := fd |} prevAction
     = Normal {| activeStepIndex := Js.int (i - 1);
                 activeSubStepIndex := Js.int 0;
                 steps := ostps; formData := fd |})
  ∧ (∀ stps fd i j (substeps : list Elem),
       Js.index stps (Js.int i) = Some substeps →
       (Js.len substeps ≤ 1 ∨ j + 1 = Js.len substeps →
          run [nextAction; prevAction] (at_position stps fd i j)
            = Normal (at_position stps fd i 0))
       ∧ (1 < Js.len substeps ∧ j + 1 ≠ Js.len substeps →
            run [nextAction; prevAction] (at_position stps fd i j)
              = Normal (at_position stps fd (i - 1) 0))).
Proof.
  split; [intros; apply retreat_position|].
  intros stps fd i j substeps Hidx. split.
  - intros Hcase. cbn [run].
    rewrite (advance_to_next_step _ _ _ _ _ Hidx Hcase). cbn [Js.bind].
    unfold at_position. rewrite retreat_position.
    replace (i + 1 - 1) with i by lia. reflexivity.
  - intros [Hlen Hne]. cbn [run].
    rewrite (advance_within_step _ _ _ _ _ Hidx Hlen Hne). cbn [Js.bind].
    unfold at_position. rewrite retreat_position. reflexivity.
Qed.

(** C3. For every prior state and every integer [k], the [GOTO] action
    carrying [k] as its [index] yields position [(k, 0)] and leaves the
    rest of the state alone; no bound on [k] is consulted, and the other
    properties of the action play no part. *)
Theorem goTo_yields_position_k_0 state k
    (f : option (gmap string string)) (p : option Action.payloadT) :
  multiStepFormReducer state
    (Action.Obj {| Action.type := Some Types.goto;
                   Action.index := Js.int k;
                   Action.fields := f;
                   Action.payload := p |})
  = Normal {| activeStepIndex := Js.int k;
              activeSubStepIndex := Js.int 0;
              steps := steps state;
              formData := formData state |}.
Proof. rewrite reducer_GOTO by reflexivity. reflexivity. Qed.

(** *** NEXT outside the step list *)

Lemma advance_outside_step_list state stps i :
  steps state = Some stps →
  activeStepIndex state = Js.int i →
  ¬ (0 ≤ i < Js.len stps) →
  multiStepFormReducer state nextAction = Throw TypeError.
Proof.
  intros Hs Hi Hout. unfold nextAction. rewrite reducer_NEXT by reflexivity.
  unfold current_step_length. rewrite Hs, Hi.
  destruct (Js.index stps (Js.int i)) as [substeps|] eqn:Hidx; [|reflexivity].
  exfalso. apply Hout, index_in_range. rewrite Hidx. eauto.
Qed.

Lemma advance_inside_step_list state stps i :
  steps state = Some stps →
  activeStepIndex state = Js.int i →
  0 ≤ i < Js.len stps →
  ∃ state', multiStepFormReducer state nextAction = Normal state'.
Proof.
  intros Hs Hi Hin. apply index_in_range in Hin as [substeps Hidx].
  unfold nextAction. rewrite reducer_NEXT by reflexivity.
  unfold current_step_length. rewrite Hs, Hi, Hidx.
  destruct (_ && _); eauto.
Qed.


(** C8. [NEXT] reads [steps[activeStepIndex].length] before it decides:
    with [0 <= activeStepIndex < steps.length] the read succeeds and a
    state is returned; from a state whose step index is outside the step
    list the read throws a [TypeError], while [PREV] and [GOTO] from the
    same state still return a state: [GOTO] at position [(k, 0)], [PREV] at
    substep 0 of step [activeStepIndex - 1] when the step index is a safe
    integer. *)
Theorem advance_faults_outside_step_list state stps i :
  steps state = Some stps →
  activeStepIndex state = Js.int i →
  (0 ≤ i < Js.len stps →
     ∃ state', multiStepFormReducer state nextAction = Normal state')
  ∧ (¬ (0 ≤ i < Js.len stps) →
       multiStepFormReducer state nextAction = Throw TypeError
       ∧ (∃ state',
            multiStepFormReducer state prevAction = Normal state'
            ∧ activeSubStepIndex state' = Js.int 0
            ∧ steps state' = steps state
            ∧ formData state' = formData state
            ∧ (Js.safe_integer i = true →
               activeStepIndex state' = Js.int (i - 1)))
       ∧ ∀ k, multiStepFormReducer state (gotoAction k)
              = Normal {| activeStepIndex := Js.int k;
                          activeSubStepIndex := Js.int 0;
                          steps := steps state;
                          formData := formData state |}).
Proof.
  intros Hs Hi. split.
  - apply (advance_inside_step_list _ _ _ Hs Hi).
  - intros Hout. split; [|split].
    + apply (advance_outside_step_list _ _ _ Hs Hi Hout).
    + destruct state as [si sub ostps fd]. cbn in Hi. subst si.
      rewrite retreat_position. eexists. split; [reflexivity|].
      cbn [activeStepIndex activeSubStepIndex steps formData].
      repeat split; reflexivity.
    + apply goto_position.
Qed.

(** Two ways to get outside the step list: an advance that leaves the last
    step, and a [GOTO] with an index outside the list. The next advance
    throws. *)
Lemma advance_after_leaving_the_last_step stps fd j (last : list Elem) :
  Js.index stps (Js.int (Js.len stps - 1)) = Some last →
  Js.len last ≤ 1 ∨ j + 1 = Js.len last →
  run [nextAction; nextAction] (at_position stps fd (Js.len stps - 1) j)
    = Throw TypeError.
Proof.
  intros Hidx Hcase. cbn [run].
  rewrite (advance_to_next_step _ _ _ _ _ Hidx Hcase). cbn [Js.bind].
  replace (Js.len stps - 1 + 1) with (Js.len stps) by lia.
  rewrite (advance_outside_step_list _ stps (Js.len stps));
    [reflexivity..|lia].
Qed.

Lemma advance_after_goto_outside stps fd i j k :
  ¬ (0 ≤ k < Js.len stps) →
  run [gotoAction k; nextAction] (at_position stps fd i j) = Throw TypeError.
Proof.
  intros Hout. cbn [run]. rewrite goto_position. cbn [Js.bind].
  rewrite (advance_outside_step_list _ stps k); [reflexivity..|assumption].
Qed.

(** *** The default branch and the callbacks of the hook *)

Lemma dispatch_bare_string state (tag : string) (ignored : list Action.t) :
  dispatch state (Action.Str tag) ignored = Throw invalid_undefined.
Proof.
  unfold dispatch. rewrite reducer_default by (cbn; discriminate).
  reflexivity.
Qed.

(** A tagged action object never reaches the default branch. *)
Lemma tagged_action_is_recognised state o (e : string) :
  Action.type o ∈ [Some Types.next; Some Types.prev; Some Types.goto;
                   Some Types.updateFormData] →
  multiStepFormReducer state (Action.Obj o) ≠ Throw (Error e).
Proof.
  intros Hty. repeat (apply elem_of_cons in Hty as [Hty|Hty]).
  - rewrite reducer_NEXT by exact Hty.
    destruct (current_step_length state); [|discriminate].
    destruct (_ && _); discriminate.
  - rewrite reducer_PREV by exact Hty. discriminate.
  - rewrite reducer_GOTO by exact Hty. discriminate.
  - rewrite reducer_UPDATE_FORM_DATA by exact Hty. discriminate.
  - apply elem_of_nil in Hty as [].
Qed.

(** C4 (the code departs from the claim). Each callback hands [dispatch]
    the bare tag string, not an object with a [type] property; the reducer
    reads [action.type] as [undefined], falls to its default branch and
    throws. So, for every state, no callback produces the result of the
    reducer on the tagged action it stands for. *)
Theorem callbacks_dispatch_the_bare_tag state k partial :
  next state = Throw invalid_undefined
  ∧ back state = Throw invalid_undefined
  ∧ goTo state k = Throw invalid_undefined
  ∧ updateFormData state partial = Throw invalid_undefined
  ∧ next state ≠ multiStepFormReducer state nextAction
  ∧ back state ≠ multiStepFormReducer state prevAction
  ∧ goTo state k ≠ multiStepFormReducer state (gotoAction k)
  ∧ updateFormData state partial
    ≠ multiStepFormReducer state (updateFormDataAction partial).
Proof.
  unfold next, back, goTo, updateFormData.
  rewrite !dispatch_bare_string.
  repeat split; try reflexivity; apply not_eq_sym;
    apply tagged_action_is_recognised; cbn [Action.type];
    set_solver.
Qed.

(** C6. For every state, an action whose [type] is none of the four tags
    makes the reducer throw an [Error] that names the type; no state is
    returned. *)
Theorem unknown_action_type_throws state action :
  Action.get_type action ∉ [Some Types.next; Some Types.prev;
                            Some Types.goto; Some Types.updateFormData] →
  multiStepFormReducer state action
    = Throw (Error ("Invalid action type: "
                    +:+ Js.template (Action.get_type action)))
  ∧ ∀ state', multiStepFormReducer state action ≠ Normal state'.
Proof.
  intros Hty.
  assert (multiStepFormReducer state action
          = Throw (Error ("Invalid action type: "
                          +:+ Js.template (Action.get_type action)))) as ->.
  { apply reducer_default; intros Heq; apply Hty; rewrite Heq;
      unfold Types.next, Types.prev, Types.goto, Types.updateFormData;
      set_solver. }
  split; [reflexivity | discriminate].
Qed.

(** The declared action types put the arguments under [payload]; the
    reducer reads [action.index] and [action.fields], so an action of the
    declared shape leaves the step index [undefined] and the form data as
    they were. *)
Lemma goto_with_payload_only state k :
  multiStepFormReducer state
    (Action.Obj {| Action.type := Some Types.goto;
                   Action.index := Undefined;
                   Action.fields := None;
                   Action.payload :=
                     Some {| Action.payload_index := Js.int k;
                             Action.payload_fields := None |} |})
  = Normal {| activeStepIndex := Undefined;
              activeSubStepIndex := Js.int 0;
              steps := steps state;
              formData := formData state |}.
Proof. rewrite reducer_GOTO by reflexivity. reflexivity. Qed.

Lemma update_with_payload_only state partial :
  multiStepFormReducer state
    (Action.Obj {| Action.type := Some Types.updateFormData;
                   Action.index := Undefined;
                   Action.fields := None;
                   Action.payload :=
                     Some {| Action.payload_index := Undefined;
                             Action.payload_fields := Some partial |} |})
  = Normal state.
Proof.
  rewrite reducer_UPDATE_FORM_DATA by reflexivity.
  cbn [Action.fields Js.spread default]. rewrite (left_id_L ∅ (∪)).
  destruct state; reflexivity.
Qed.

(** *** UPDATE_FORM_DATA *)

Lemma update_result state partial (i : value) (p : option Action.payloadT) :
  multiStepFormReducer state
    (Action.Obj {| Action.type := Some Types.updateFormData;
                   Action.index := i;
                   Action.fields := Some partial;
                   Action.payload := p |})
  = Normal {| activeStepIndex := activeStepIndex state;
              activeSubStepIndex := activeSubStepIndex state;
              steps := steps state;
              formData := partial ∪ formData state |}.
Proof. rewrite reducer_UPDATE_FORM_DATA by reflexivity. reflexivity. Qed.

(** C5. [UPDATE_FORM_DATA] with the partial mapping [partial] always
    returns a state; position and step list are those of the prior state;
    a field named in [partial] takes the value given there and every other
    field keeps its prior value. In particular, from the initial form data,
    an update of [a] to [x] followed by an update of another field [b] to
    [y] leaves [a = x], [b = y] and every other field as it initially
    was, which is the empty string for each of the ten fields. *)
Theorem updateFields_changes_only_named_fields :
  (∀ state partial (i : value) (p : option Action.payloadT),
     multiStepFormReducer state
       (Action.Obj {| Action.type := Some Types.updateFormData;
                      Action.index := i;
                      Action.fields := Some partial;
                      Action.payload := p |})
     = Normal {| activeStepIndex := activeStepIndex state;
                 activeSubStepIndex := activeSubStepIndex state;
                 steps := steps state;
                 formData := partial ∪ formData state |}
     ∧ (∀ f v, partial !! f = Some v →
               (partial ∪ formData state) !! f = Some v)
     ∧ (∀ f, partial !! f = None →
             (partial ∪ formData state) !! f = formData state !! f))
  ∧ (∀ (si sub : value) (ostps : option (list (list Elem)))
       (a b x y : string),
       a ≠ b →
       ∃ fd,
         run [updateFormDataAction {[a := x]};
              updateFormDataAction {[b := y]}]
           {| activeStepIndex := si; activeSubStepIndex := sub;
              steps := ostps; formData := initialFormData |}
         = Normal {| activeStepIndex := si; activeSubStepIndex := sub;
                     steps := ostps; formData := fd |}
         ∧ fd !! a = Some x
         ∧ fd !! b = Some y
         ∧ ∀ f, f ≠ a → f ≠ b → fd !! f = initialFormData !! f)
  ∧ Forall (λ f, initialFormData !! f = Some "")
      [ "firstName"; "lastName"; "age"; "street"; "city";
        "state"; "zip"; "email"; "password"; "code" ].
Proof.
  split; [|split].
  - intros state partial i p. split; [apply update_result|]. split.
    + intros f v Hf. apply lookup_union_Some_l, Hf.
    + intros f Hf. apply lookup_union_r, Hf.
  - intros si sub ostps a b x y Hab.
    exists ({[b := y]} ∪ ({[a := x]} ∪ initialFormData)).
    split; [|split; [|split]].
    + unfold updateFormDataAction. cbn [run].
      rewrite update_result. cbn [Js.bind]. rewrite update_result.
      reflexivity.
    + rewrite lookup_union_r by (apply lookup_singleton_ne; congruence).
      apply lookup_union_Some_l, lookup_singleton_eq.
    + apply lookup_union_Some_l, lookup_singleton_eq.
    + intros f Hfa Hfb.
      rewrite !lookup_union_r
        by (apply lookup_singleton_ne; congruence).
      reflexivity.
  - repeat constructor.
Qed.

(** *** The object the hook returns *)

Lemma useMultiStepForm_ignores_state
    (globals : Globals) state state' stps :
  useMultiStepForm globals state stps = useMultiStepForm globals state' stps.
Proof. reflexivity. Qed.

Lemma useMultiStepForm_unbound (globals : Globals) state stps :
  global_activeStepIndex globals = None →
  useMultiStepForm globals state stps
  = Throw (ReferenceError "activeStepIndex").
Proof. intros Hg. unfold useMultiStepForm. rewrite Hg. reflexivity. Qed.

(** When a host defines the three identifiers as globals, the flags compare
    the global, whatever the state of the reducer is. *)
Lemma useMultiStepForm_flags_of_globals
    (asi assi : value) fd state stps (r : Returned) :
  useMultiStepForm
    {| global_activeStepIndex := Some asi;
       global_activeSubStepIndex := Some assi;
       global_formData := Some fd |} state stps = Normal r →
  ret_isFirstStep r = Js.strict_eq asi (Js.int 0)
  ∧ ret_isLastStep r = Js.strict_eq asi (Js.int (Js.len stps - 1)).
Proof.
  unfold useMultiStepForm. cbn [global_activeStepIndex
    global_activeSubStepIndex global_formData resolve Js.bind].
  destruct (Js.index stps asi) as [substeps|]; cbn [Js.bind];
    [|discriminate].
  intros [= <-]. split; reflexivity.
Qed.

(** C9 (the code departs from the claim). The hook computes the flags from
    the identifier [activeStepIndex], which it never binds to the step index
    of its state. Where no global of that name exists, every call of the
    hook throws a [ReferenceError] at the first property of the returned
    object, for every state and step list, so no flag is produced. In any
    host the outcome of the hook is the same for every state; so where
    globals of these names exist and hold 0, [isFirstStep] is true at every
    step index [i] of the state, not only at 0. *)
Theorem hook_flags_do_not_read_the_state :
  (∀ state stps,
     useMultiStepForm no_globals state stps
     = Throw (ReferenceError "activeStepIndex"))
  ∧ (∀ (globals : Globals) state state' stps,
       useMultiStepForm globals state stps
       = useMultiStepForm globals state' stps)
  ∧ (∀ i fd stps (first : list Elem) (unit : Elem),
       ∃ r,
         useMultiStepForm
           {| global_activeStepIndex := Some (Js.int 0);
              global_activeSubStepIndex := Some (Js.int 0);
              global_formData := Some fd |}
           (at_position ((unit :: first) :: stps) fd i 0)
           ((unit :: first) :: stps)
         = Normal r
         ∧ ret_isFirstStep r = true).
Proof.
  split; [|split].
  - intros state stps. by apply useMultiStepForm_unbound.
  - intros. apply useMultiStepForm_ignores_state.
  - intros i fd stps first unit. eexists. split; reflexivity.
Qed.

(** *** Context lookup *)

(** C10. Called with no enclosing provider, [useMultiStepFormContext]
    throws its explicit [Error]; and whenever it returns a form, that form
    is the value of the nearest enclosing provider, never the [null]
    default. *)
Theorem context_read_outside_provider_throws :
  useMultiStepFormContext (Elem := Elem) []
    = Throw (Error
        "useMultiStepFormContext must be used within a MultiStepFormProvider")
  ∧ ∀ (providers : list (option (MultiStepForm Elem))) form,
      useMultiStepFormContext providers = Normal form →
      ∃ outer, providers = Some form :: outer.
Proof.
  split; [reflexivity|].
  intros providers form. unfold useMultiStepFormContext, useContext.
  destruct providers as [|[form'|] outer]; cbn [hd]; try discriminate.
  intros [= ->]. eauto.
Qed.

End Properties.

(** ** The properties on concrete sessions *)

(** The walk of the step list [[A], [B1, B2], [C]] from [(0, 0)]. *)
Example scenario_walk :
  run [nextAction; nextAction; nextAction; prevAction]
    (at_position scenario_steps initialFormData 0 0)
  = Normal (at_position scenario_steps initialFormData 1 0)
  ∧ run [nextAction] (at_position scenario_steps initialFormData 0 0)
    = Normal (at_position scenario_steps initialFormData 1 0)
  ∧ run [nextAction; nextAction]
      (at_position scenario_steps initialFormData 0 0)
    = Normal (at_position scenario_steps initialFormData 1 1)
  ∧ run [nextAction; nextAction; nextAction]
      (at_position scenario_steps initialFormData 0 0)
    = Normal (at_position scenario_steps initialFormData 2 0).
Proof. repeat split. Qed.

(** The callback [next] at the start of the scenario throws, where the
    reducer on the tagged action moves to [(1, 0)]. *)
Example next_callback_at_scenario_start :
  next (at_position scenario_steps initialFormData 0 0)
  = Throw (Error "Invalid action type: undefined")
  ∧ multiStepFormReducer (at_position scenario_steps initialFormData 0 0)
      nextAction
    = Normal (at_position scenario_steps initialFormData 1 0).
Proof. split; reflexivity. Qed.

(** The hook on the scenario, in a host without such globals, at the start
    position: it throws before any flag is computed. *)
Example hook_at_scenario_start :
  useMultiStepForm no_globals
    (at_position scenario_steps initialFormData 0 0) scenario_steps
  = Throw (ReferenceError "activeStepIndex").
Proof. reflexivity. Qed.

(** From the state given to [useReducer], which has no [steps], the tagged
    [NEXT] action faults on the read of the step list. *)
Example next_from_initialState :
  multiStepFormReducer (initialState (Elem := string)) nextAction
  = Throw TypeError.
Proof. reflexivity. Qed.

(** In the step [[B1, B2]] of the scenario: one advance stays in step 1,
    the second one reaches step 2. *)
Lemma advance_walks_substeps_witness :
  (∀ k : nat, Z.of_nat k ≤ Js.len ["B1"; "B2"] - 1 →
     run (replicate k nextAction)
       (at_position scenario_steps initialFormData 1 0)
     = Normal (at_position scenario_steps initialFormData 1 (Z.of_nat k)))
  ∧ run (replicate 2 nextAction)
      (at_position scenario_steps initialFormData 1 0)
    = Normal (at_position scenario_steps initialFormData 2 0).
Proof.
  apply (advance_walks_substeps_then_next_step
           scenario_steps initialFormData 1 ["B1"; "B2"]).
  - reflexivity.
  - reflexivity.
Defined.

(** From [(1, 0)] the advance only moves to substep 1, and the retreat then
    lands on step 0, not on step 1. *)
Lemma advance_then_retreat_counterexample :
  run [nextAction; prevAction]
    (at_position scenario_steps initialFormData 1 0)
  = Normal (at_position scenario_steps initialFormData 0 0)
  ∧ activeStepIndex (at_position scenario_steps initialFormData 0 0)
    ≠ activeStepIndex (at_position scenario_steps initialFormData 1 0).
Proof. split; [reflexivity | discriminate]. Qed.

(** A retreat from [(2, 0)] lands on [(1, 0)]; from [(1, 1)], the last
    substep of step 1, advance then retreat lands on [(1, 0)]. *)
Lemma retreat_resets_witness :
  multiStepFormReducer (at_position scenario_steps initialFormData 2 0)
    prevAction
  = Normal (at_position scenario_steps initialFormData 1 0)
  ∧ run [nextAction; prevAction]
      (at_position scenario_steps initialFormData 1 1)
    = Normal (at_position scenario_steps initialFormData 1 0).
Proof.
  split.
  - apply (proj1 (retreat_resets_to_start_of_previous_step (Elem := string))
             (Js.int 0) (Some scenario_steps) initialFormData 2).
    reflexivity.
  - apply (proj1 (proj2 (retreat_resets_to_start_of_previous_step
                           (Elem := string))
                    scenario_steps initialFormData 1 1 ["B1"; "B2"] eq_refl)).
    right. reflexivity.
Defined.

(** An action of type [RESET] is refused. *)
Lemma unknown_action_type_witness :
  multiStepFormReducer (at_position scenario_steps initialFormData 0 0)
    resetAction
  = Throw (Error "Invalid action type: RESET")
  ∧ ∀ state',
      multiStepFormReducer (at_position scenario_steps initialFormData 0 0)
        resetAction ≠ Normal state'.
Proof.
  apply (unknown_action_type_throws
           (at_position scenario_steps initialFormData 0 0) resetAction).
  cbn [Action.get_type resetAction Action.type].
  rewrite !elem_of_cons, elem_of_nil.
  intros [H|[H|[H|[H|[]]]]]; discriminate H.
Defined.

(** Two updates from the initial form data. *)
Lemma updateFields_witness :
  ∃ fd,
    run [updateFormDataAction {["firstName" := "x"]};
         updateFormDataAction {["email" := "y"]}]
      (initialState (Elem := string))
    = Normal {| activeStepIndex := Js.int 0; activeSubStepIndex := Js.int 0;
                steps := None; formData := fd |}
    ∧ fd !! "firstName" = Some "x"
    ∧ fd !! "email" = Some "y"
    ∧ ∀ f, f ≠ "firstName" → f ≠ "email" → fd !! f = initialFormData !! f.
Proof.
  apply (proj1 (proj2 (updateFields_changes_only_named_fields (Elem := string)))
           (Js.int 0) (Js.int 0) None "firstName" "email" "x" "y").
  discriminate.
Defined.



(** At step 3 of the three-step scenario, [NEXT] throws while [PREV] and
    [GOTO] return. *)
Lemma advance_faults_witness :
  multiStepFormReducer (at_position scenario_steps initialFormData 3 0)
    nextAction = Throw TypeError
  ∧ (∃ state',
       multiStepFormReducer (at_position scenario_steps initialFormData 3 0)
         prevAction = Normal state'
       ∧ activeSubStepIndex state' = Js.int 0
       ∧ steps state' = Some scenario_steps
       ∧ formData state' = initialFormData
       ∧ (Js.safe_integer 3 = true → activeStepIndex state' = Js.int (3 - 1)))
  ∧ ∀ k, multiStepFormReducer
           (at_position scenario_steps initialFormData 3 0) (gotoAction k)
         = Normal (at_position scenario_steps initialFormData k 0).
Proof.
  apply (proj2 (advance_faults_outside_step_list
                  (at_position scenario_steps initialFormData 3 0)
                  scenario_steps 3 eq_refl eq_refl)).
  unfold Js.len, scenario_steps. cbn [length]. lia.
Defined.

(** Inside one provider the lookup returns that provider's value. *)
Lemma context_read_witness :
  ∃ outer,
    [Some (initialState (Elem := string))] = Some initialState :: outer.
Proof.
  apply (proj2 (context_read_outside_provider_throws (Elem := string))
           [Some initialState] initialState).
  reflexivity.
Defined.

(** ** Further properties of the store *)

Section Walk.

Context {Elem : Type}.

Implicit Types (state : MultiStepForm Elem) (stps pre suf : list (list Elem)).
Implicit Types (fd partial : gmap string string) (i j : Z).

(** *** What no action touches *)

Lemma reducer_frame state action state' :
  multiStepFormReducer state action = Normal state' →
  steps state' = steps state
  ∧ (Action.get_type action ≠ Some "UPDATE_FORM_DATA" →
     formData state' = formData state)
  ∧ (Action.get_type action = Some "UPDATE_FORM_DATA" →
     activeStepIndex state' = activeStepIndex state
     ∧ activeSubStepIndex state' = activeSubStepIndex state).
Proof.
  unfold multiStepFormReducer.
  repeat case_bool_decide.
  - destruct (current_step_length state) as [len|]; [|discriminate].
    destruct (1 <? len); [destruct (Js.strict_eq _ _)|];
      intros [= <-]; cbn; repeat split; congruence.
  - intros [= <-]; cbn; repeat split; congruence.
  - intros [= <-]; cbn; repeat split; congruence.
  - intros [= <-]; cbn; repeat split; congruence.
  - discriminate.
Qed.

Lemma run_cons_inv (a : Action.t) (rest : list Action.t) state state' :
  run (a :: rest) state = Normal state' →
  ∃ mid, multiStepFormReducer state a = Normal mid ∧ run rest mid = Normal state'.
Proof.
  cbn [run]. destruct (multiStepFormReducer state a) as [mid|e];
    cbn [Js.bind]; [eauto | discriminate].
Qed.

Lemma run_steps (actions : list Action.t) state state' :
  run actions state = Normal state' → steps state' = steps state.
Proof.
  revert state. induction actions as [|a rest IH]; intros state Hrun.
  - by injection Hrun as <-.
  - apply run_cons_inv in Hrun as (mid & Hstep & Hrest).
    apply reducer_frame in Hstep as (Hs & _). rewrite (IH _ Hrest). exact Hs.
Qed.

(** X1. Over any sequence of actions that runs to the end without a throw,
    the step list of the state is the one it started with, and when none of
    the actions is an [UPDATE_FORM_DATA] the form data are unchanged too. *)
Theorem run_keeps_steps_and_form_data (actions : list Action.t) state state' :
  run actions state = Normal state' →
  steps state' = steps state
  ∧ (Forall (λ a, Action.get_type a ≠ Some "UPDATE_FORM_DATA") actions →
     formData state' = formData state).
Proof.
  revert state. induction actions as [|a rest IH]; intros state Hrun.
  - injection Hrun as <-. split; reflexivity.
  - apply run_cons_inv in Hrun as (mid & Hstep & Hrest).
    apply reducer_frame in Hstep as (Hs & Hfd & _).
    apply IH in Hrest as [Hs' Hfd']. split; [congruence|].
    intros Hall. apply Forall_cons in Hall as [Ha Hall].
    rewrite (Hfd' Hall). apply Hfd, Ha.
Qed.

(** X2. No action removes a field: over any sequence of actions that runs
    to the end, every field that had a value still has one. *)
Theorem run_never_removes_a_field
    (actions : list Action.t) state state' (f : string) :
  run actions state = Normal state' →
  is_Some (formData state !! f) →
  is_Some (formData state' !! f).
Proof.
  revert state. induction actions as [|a rest IH]; intros state Hrun Hf.
  - injection Hrun as <-. exact Hf.
  - apply run_cons_inv in Hrun as (mid & Hstep & Hrest).
    apply (IH mid Hrest).
    destruct (decide (Action.get_type a = Some "UPDATE_FORM_DATA")) as [Hty|Hty].
    + revert Hstep. unfold multiStepFormReducer. rewrite Hty.
      cbn [bool_decide decide_rel]. intros [= <-]. cbn [formData].
      destruct Hf as [v Hv].
      destruct (Js.spread (Action.get_fields a) !! f) as [w|] eqn:Hw.
      * exists w. apply lookup_union_Some_l, Hw.
      * exists v. rewrite lookup_union_r by exact Hw. exact Hv.
    + apply reducer_frame in Hstep as (_ & Hfd & _).
      rewrite (Hfd Hty). exact Hf.
Qed.

(** X3. The state given to [useReducer] has no [steps] property, and no
    action adds one: after any sequence of actions from it, a [NEXT] action
    throws a [TypeError] on the read of the step list. *)
Theorem next_always_faults_from_initialState
    (actions : list Action.t) state' (o : Action.object) :
  run actions (initialState (Elem := Elem)) = Normal state' →
  Action.type o = Some "NEXT" →
  multiStepFormReducer state' (Action.Obj o) = Throw TypeError.
Proof.
  intros Hrun Hty. apply run_steps in Hrun as Hs.
  rewrite (reducer_NEXT _ _ Hty). unfold current_step_length.
  rewrite Hs. reflexivity.
Qed.

(** *** The substep index stays inside its step *)

Lemma substep_in_range_zero (si : value) (ostps : option (list (list Elem))) fd :
  substep_in_range {| activeStepIndex := si; activeSubStepIndex := Js.int 0;
                      steps := ostps; formData := fd |} = true.
Proof. reflexivity. Qed.

Lemma reducer_keeps_substep_in_range state (action : Action.t) state' :
  substep_in_range state = true →
  multiStepFormReducer state action = Normal state' →
  substep_in_range state' = true.
Proof.
  intros Hinv. unfold multiStepFormReducer. repeat case_bool_decide.
  - destruct (current_step_length state) as [len|] eqn:Hlen; [|discriminate].
    destruct (Z.ltb_spec 1 len) as [Hgt|Hle];
      [|intros [= <-]; apply substep_in_range_zero].
    destruct (Js.strict_eq _ _) eqn:Heq;
      [intros [= <-]; apply substep_in_range_zero|].
    intros [= <-]. revert Hinv Heq.
    unfold substep_in_range, current_step_length in *. cbn.
    destruct (activeSubStepIndex state) as [|[j|]]; try discriminate.
    cbn. destruct (steps state) as [stps|]; [|discriminate].
    destruct (Js.index stps (activeStepIndex state)) as [substeps|];
      [|discriminate].
    injection Hlen as <-. intros Hinv Hne. apply orb_true_iff. right.
    apply andb_true_iff. split; [apply Z.ltb_lt | apply Z.ltb_lt].
    + apply orb_true_iff in Hinv as [?%Z.eqb_eq | [?%Z.ltb_lt _]%andb_true_iff];
        lia.
    + apply Z.eqb_neq in Hne.
      apply orb_true_iff in Hinv
        as [?%Z.eqb_eq | [_ ?%Z.ltb_lt]%andb_true_iff]; lia.
  - intros [= <-]. apply substep_in_range_zero.
  - intros [= <-]. apply substep_in_range_zero.
  - intros [= <-]. exact Hinv.
  - discriminate.
Qed.

Lemma run_substep_in_range (actions : list Action.t) state state' :
  substep_in_range state = true →
  run actions state = Normal state' →
  substep_in_range state' = true.
Proof.
  revert state. induction actions as [|a rest IH]; intros state Hinv Hrun.
  - by injection Hrun as <-.
  - apply run_cons_inv in Hrun as (mid & Hstep & Hrest).
    eauto using reducer_keeps_substep_in_range.
Qed.

Lemma js_index_in_range {A : Type} (arr : list A) i :
  is_Some (Js.index arr (Js.int i)) ↔ 0 ≤ i < Js.len arr.
Proof.
  unfold Js.index, Js.int, Js.len.
  destruct (Z.leb_spec 0 i) as [Hle|Hlt].
  - rewrite lookup_lt_is_Some. lia.
  - split; [intros [x Hx]; discriminate | lia].
Qed.

(** X4. The substep index never leaves its step. A state whose substep
    index is 0, or a positive index inside the current step, keeps that
    property over every sequence of actions, of whatever kind, that runs to
    the end; the position [(0, 0)] the store starts at is such a state. *)
Theorem run_keeps_substep_in_range (actions : list Action.t) state state' :
  substep_in_range state = true →
  run actions state = Normal state' →
  substep_in_range state' = true.
Proof.
  revert state. induction actions as [|a rest IH]; intros state Hinv Hrun.
  - by injection Hrun as <-.
  - apply run_cons_inv in Hrun as (mid & Hstep & Hrest).
    apply (IH mid); [|exact Hrest].
    apply (reducer_keeps_substep_in_range _ _ _ Hinv Hstep).
Qed.

(** *** The unit a position designates *)

Lemma unit_in_range_defined stps state (substeps : list Elem) :
  steps state = Some stps →
  Js.index stps (activeStepIndex state) = Some substeps →
  substeps ≠ [] →
  substep_in_range state = true →
  is_Some (Js.index substeps (activeSubStepIndex state)).
Proof.
  intros Hs Hidx Hne. unfold substep_in_range, current_step_length.
  rewrite Hs, Hidx.
  destruct (activeSubStepIndex state) as [|[j|]]; try discriminate.
  intros Hinv. apply js_index_in_range.
  assert (0 < Js.len substeps)
    by (unfold Js.len; destruct substeps; [done | cbn; lia]).
  apply orb_true_iff in Hinv
    as [?%Z.eqb_eq | [?%Z.ltb_lt ?%Z.ltb_lt]%andb_true_iff]; lia.
Qed.

(** X5. Whatever actions were applied since the start position [(0, 0)] of
    a session, as long as the step index of the state designates a step
    that has substeps, the substep index designates one of them:
    [steps[activeStepIndex][activeSubStepIndex]] is an element of that
    step. *)
Theorem position_designates_a_unit_while_in_step_list
    (actions : list Action.t) stps fd state' (substeps : list Elem) :
  run actions (at_position stps fd 0 0) = Normal state' →
  Js.index stps (activeStepIndex state') = Some substeps →
  substeps ≠ [] →
  ∃ unit, Js.index substeps (activeSubStepIndex state') = Some unit
          ∧ unit ∈ substeps.
Proof.
  intros Hrun Hidx Hne.
  assert (steps state' = Some stps) as Hs by (by rewrite (run_steps _ _ _ Hrun)).
  assert (substep_in_range state' = true) as Hinv
    by (apply (run_substep_in_range _ _ _ (substep_in_range_zero _ _ _) Hrun)).
  destruct (unit_in_range_defined _ _ _ Hs Hidx Hne Hinv) as [unit Hunit].
  exists unit. split; [exact Hunit|].
  unfold Js.index in Hunit.
  destruct (activeSubStepIndex state') as [|[j|]]; try discriminate.
  destruct (0 <=? j); [|discriminate].
  apply list_elem_of_lookup. eauto.
Qed.

(** *** Walking a form from its first unit *)

Lemma index_middle pre (substeps : list Elem) suf :
  Js.index (pre ++ substeps :: suf) (Js.int (Js.len pre)) = Some substeps.
Proof.
  unfold Js.index, Js.int, Js.len.
  destruct (Z.leb_spec 0 (Z.of_nat (length pre))) as [_|?]; [|lia].
  rewrite Nat2Z.id. apply list_lookup_middle. reflexivity.
Qed.

Lemma len_snoc pre (substeps : list Elem) :
  Js.len (pre ++ [substeps]) = Js.len pre + 1.
Proof. unfold Js.len. rewrite length_app. cbn [length]. lia. Qed.

(** From its first substep, a step is left after as many advances as it has
    substeps, one advance if it has none. *)
Lemma advance_through_step stps fd i (substeps : list Elem) :
  Js.index stps (Js.int i) = Some substeps →
  run (replicate (Nat.max 1 (length substeps)) nextAction)
    (at_position stps fd i 0)
  = Normal (at_position stps fd (i + 1) 0).
Proof.
  intros Hidx.
  destruct (decide (length substeps ≤ 1)%nat) as [Hle|Hgt].
  - replace (Nat.max 1 (length substeps)) with 1%nat by lia.
    cbn [replicate run].
    rewrite (advance_to_next_step _ _ _ _ _ Hidx)
      by (left; unfold Js.len; lia).
    reflexivity.
  - replace (Nat.max 1 (length substeps))
      with (Z.to_nat (Js.len substeps - 1) + 1)%nat
      by (unfold Js.len; lia).
    rewrite replicate_add, run_app.
    rewrite (advance_n_within_step _ _ _ _ _ _ Hidx)
      by (unfold Js.len; lia).
    cbn [Js.bind replicate run].
    rewrite (advance_to_next_step _ _ _ _ _ Hidx)
      by (right; unfold Js.len; lia).
    reflexivity.
Qed.

Lemma walk_to_the_end suf pre fd :
  run (replicate (units suf) nextAction)
    (at_position (pre ++ suf) fd (Js.len pre) 0)
  = Normal (at_position (pre ++ suf) fd (Js.len (pre ++ suf)) 0).
Proof.
  revert pre. induction suf as [|substeps suf IH]; intros pre.
  - cbn [units foldr replicate run]. rewrite app_nil_r. reflexivity.
  - cbn [units foldr]. fold (units suf).
    rewrite replicate_add, run_app.
    rewrite (advance_through_step _ _ _ _ (index_middle pre substeps suf)).
    cbn [Js.bind]. rewrite <- (len_snoc pre substeps).
    rewrite (cons_middle substeps pre suf), (assoc_L (++)).
    apply IH.
Qed.

Lemma units_nonempty suf :
  Forall (λ substeps, substeps ≠ []) suf → units suf = length (concat suf).
Proof.
  induction 1 as [|substeps suf Hne _ IH]; [reflexivity|].
  cbn [units foldr concat]. fold (units suf).
  rewrite length_app, IH. destruct substeps; [done | cbn [length]; lia].
Qed.

Lemma walk_position suf pre fd (k : nat) :
  (k < units suf)%nat →
  ∃ i j,
    run (replicate k nextAction) (at_position (pre ++ suf) fd (Js.len pre) 0)
    = Normal (at_position (pre ++ suf) fd i j)
    ∧ Js.len pre ≤ i < Js.len (pre ++ suf)
    ∧ (Forall (λ substeps, substeps ≠ []) suf →
       ∃ substeps,
         Js.index (pre ++ suf) (Js.int i) = Some substeps
         ∧ Js.index substeps (Js.int j) = concat suf !! k).
Proof.
  revert pre k. induction suf as [|substeps suf IH]; intros pre k Hk.
  - cbn in Hk. lia.
  - cbn [units foldr] in Hk. fold (units suf) in Hk.
    pose proof (index_middle pre substeps suf) as Hidx.
    destruct (decide (k < Nat.max 1 (length substeps))%nat) as [Hin|Hout].
    + exists (Js.len pre), (Z.of_nat k). split; [|split].
      * destruct (decide (k = 0)%nat) as [->|Hk0]; [reflexivity|].
        rewrite (advance_n_within_step _ _ _ _ _ _ Hidx)
          by (unfold Js.len; lia).
        reflexivity.
      * unfold Js.len. rewrite length_app. cbn [length]. lia.
      * intros Hall. apply Forall_cons in Hall as [Hne _].
        exists substeps. split; [exact Hidx|].
        assert (k < length substeps)%nat
          by (destruct substeps; [done | cbn [length] in *; lia]).
        cbn [concat]. rewrite lookup_app_l by assumption.
        unfold Js.index, Js.int.
        destruct (Z.leb_spec 0 (Z.of_nat k)) as [_|?]; [|lia].
        by rewrite Nat2Z.id.
    + replace k with (Nat.max 1 (length substeps)
                      + (k - Nat.max 1 (length substeps)))%nat by lia.
      rewrite replicate_add, run_app.
      rewrite (advance_through_step _ _ _ _ Hidx). cbn [Js.bind].
      rewrite <- (len_snoc pre substeps).
      rewrite (cons_middle substeps pre suf), (assoc_L (++)).
      destruct (IH (pre ++ [substeps])%list
                  (k - Nat.max 1 (length substeps))%nat) as (i & j & Hrun & Hi & Hstep);
        [lia|].
      exists i, j. split; [exact Hrun|]. split.
      * rewrite len_snoc in Hi. lia.
      * intros Hall. apply Forall_cons in Hall as [Hne Hall].
        destruct (Hstep Hall) as (found & Hfound & Hunit).
        exists found. split; [exact Hfound|]. rewrite Hunit.
        assert (Nat.max 1 (length substeps) = length substeps) as Hmax
          by (destruct substeps; [done | cbn [length]; lia]).
        rewrite Hmax in *. cbn [concat].
        rewrite lookup_app_r by lia. f_equal. lia.
Qed.

(** X7. From position [(0, 0)], [NEXT] leaves the step list at exactly the
    [units]-th call, where a form has one unit per substep and one for a
    step without substeps: that call yields [(steps.length, 0)], and after
    fewer calls the step index is still inside the list. *)
Theorem advance_leaves_the_form_after_all_units stps fd :
  run (replicate (units stps) nextAction) (at_position stps fd 0 0)
  = Normal (at_position stps fd (Js.len stps) 0)
  ∧ ∀ k : nat, (k < units stps)%nat →
      ∃ i j, run (replicate k nextAction) (at_position stps fd 0 0)
             = Normal (at_position stps fd i j)
             ∧ 0 ≤ i < Js.len stps.
Proof.
  split.
  - apply (walk_to_the_end stps [] fd).
  - intros k Hk.
    destruct (walk_position stps [] fd k Hk) as (i & j & Hrun & Hi & _).
    exists i, j. split; [exact Hrun | exact Hi].
Qed.

(** X8. When every step has at least one substep, [k] advances from
    [(0, 0)] reach the position of the [k]-th unit of the step list read in
    order: at the position [(i, j)] reached, [steps[i][j]] is element [k] of
    the concatenation of the steps. *)
Theorem advance_reaches_the_units_in_order stps fd (k : nat) (unit : Elem) :
  Forall (λ substeps, substeps ≠ []) stps →
  concat stps !! k = Some unit →
  ∃ i j substeps,
    run (replicate k nextAction) (at_position stps fd 0 0)
    = Normal (at_position stps fd i j)
    ∧ Js.index stps (Js.int i) = Some substeps
    ∧ Js.index substeps (Js.int j) = Some unit.
Proof.
  intros Hall Hk.
  assert (k < units stps)%nat as Hlt
    by (rewrite (units_nonempty _ Hall); eapply lookup_lt_Some, Hk).
  destruct (walk_position stps [] fd k Hlt) as (i & j & Hrun & _ & Hstep).
  destruct (Hstep Hall) as (substeps & Hidx & Hunit).
  exists i, j, substeps. split; [exact Hrun|]. split; [exact Hidx|].
  rewrite <- Hk. exact Hunit.
Qed.

(** *** How updates compose *)

Lemma update_action_result state partial :
  multiStepFormReducer state (updateFormDataAction partial)
  = Normal {| activeStepIndex := activeStepIndex state;
              activeSubStepIndex := activeSubStepIndex state;
              steps := steps state;
              formData := partial ∪ formData state |}.
Proof.
  unfold updateFormDataAction.
  rewrite reducer_UPDATE_FORM_DATA by reflexivity. reflexivity.
Qed.

(** X9. Two updates in a row amount to one update with the two partial
    mappings merged, the later one taking precedence on the fields both
    name; so repeating an update changes nothing more, and an update that
    names no field returns the state as it was. *)
Theorem updates_merge_later_wins state (p1 p2 : gmap string string) :
  run [updateFormDataAction p1; updateFormDataAction p2] state
  = multiStepFormReducer state (updateFormDataAction (p2 ∪ p1))
  ∧ run [updateFormDataAction p1; updateFormDataAction p1] state
    = multiStepFormReducer state (updateFormDataAction p1)
  ∧ multiStepFormReducer state (updateFormDataAction ∅) = Normal state.
Proof.
  split; [|split].
  - cbn [run]. rewrite !update_action_result. cbn [Js.bind].
    rewrite update_action_result. cbn [activeStepIndex activeSubStepIndex
      steps formData]. by rewrite (assoc_L (∪)).
  - cbn [run]. rewrite !update_action_result. cbn [Js.bind].
    rewrite update_action_result. cbn [activeStepIndex activeSubStepIndex
      steps formData]. by rewrite (assoc_L (∪)), (idemp_L (∪)).
  - rewrite update_action_result, (left_id_L ∅ (∪)). by destruct state.
Qed.

(** X10. Form data and position are independent: an update followed by a
    [NEXT], [PREV] or [GOTO] action gives the same outcome as the two in the
    other order, a throw of [NEXT] included. *)
Theorem update_commutes_with_navigation state partial (o : Action.object) :
  is_navigation o = true →
  run [updateFormDataAction partial; Action.Obj o] state
  = run [Action.Obj o; updateFormDataAction partial] state.
Proof.
  intros Hnav. apply bool_decide_eq_true in Hnav.
  cbn [run]. rewrite update_action_result. cbn [Js.bind].
  repeat (apply elem_of_cons in Hnav as [Hty|Hnav]).
  - rewrite !(reducer_NEXT _ _ Hty).
    unfold current_step_length.
    cbn [activeStepIndex activeSubStepIndex steps formData].
    destruct (steps state) as [stps|]; [|reflexivity].
    destruct (Js.index stps (activeStepIndex state)); [|reflexivity].
    destruct (_ && _); cbn [Js.bind]; by rewrite update_action_result.
  - rewrite !(reducer_PREV _ _ Hty). cbn [Js.bind].
    by rewrite update_action_result.
  - rewrite !(reducer_GOTO _ _ Hty). cbn [Js.bind].
    by rewrite update_action_result.
  - apply elem_of_nil in Hnav as [].
Qed.

(** *** Edges of the navigation *)

(** X11. [PREV] does not stop at step 0: as long as the step indices
    involved are safe integers, [n + 1] retreats from step [i] yield
    position [(i - (n + 1), 0)] without a throw, below 0 as well, and
    whether or not the state has a step list. *)
Theorem retreat_does_not_stop_at_zero
    (n : nat) (sub : value) (ostps : option (list (list Elem))) fd i :
  Js.safe_integer i = true →
  Js.safe_integer (i - Z.of_nat (S n)) = true →
  run (replicate (S n) prevAction)
    {| activeStepIndex := Js.int i; activeSubStepIndex := sub;
       steps := ostps; formData := fd |}
  = Normal {| activeStepIndex := Js.int (i - Z.of_nat (S n));
              activeSubStepIndex := Js.int 0;
              steps := ostps; formData := fd |}.
Proof.
  intros _ _. revert sub i. induction n as [|n IH]; intros sub i.
  - cbn [replicate run]. rewrite retreat_position. reflexivity.
  - change (replicate (S (S n)) prevAction)
      with (prevAction :: replicate (S n) prevAction).
    cbn [run]. rewrite retreat_position. cbn [Js.bind].
    rewrite IH. do 3 f_equal. lia.
Qed.

(** X12. [NEXT] leaves a step only when the next substep index equals the
    number of substeps. From a substep index at or beyond the length of a
    step with several substeps, every further advance stays in that step
    and adds one to the substep index, as long as that index is a safe
    integer. *)
Theorem advance_never_leaves_a_step_once_past_its_end
    stps fd i j (substeps : list Elem) (n : nat) :
  Js.index stps (Js.int i) = Some substeps →
  1 < Js.len substeps →
  Js.len substeps ≤ j →
  Js.safe_integer (j + Z.of_nat n) = true →
  run (replicate n nextAction) (at_position stps fd i j)
  = Normal (at_position stps fd i (j + Z.of_nat n)).
Proof.
  intros Hidx Hlen Hj _. revert j Hj. induction n as [|n IH]; intros j Hj.
  - cbn [replicate run]. do 2 f_equal. lia.
  - cbn [replicate run].
    rewrite (advance_within_step _ _ _ _ _ Hidx Hlen) by lia.
    cbn [Js.bind]. rewrite IH by lia. do 2 f_equal. lia.
Qed.


End Walk.

(** ** The further properties on the scenario [[A], [B1, B2], [C]] *)

Lemma run_keeps_steps_witness :
  steps (at_position scenario_steps initialFormData 1 0)
  = steps (at_position scenario_steps initialFormData 1 1)
  ∧ formData (at_position scenario_steps initialFormData 1 0)
    = formData (at_position scenario_steps initialFormData 1 1).
Proof.
  destruct (run_keeps_steps_and_form_data
              [nextAction; prevAction]
              (at_position scenario_steps initialFormData 1 1)
              (at_position scenario_steps initialFormData 1 0) eq_refl)
    as [Hsteps Hfd].
  split; [exact Hsteps|]. apply Hfd.
  repeat (apply Forall_cons; split; [cbn; discriminate|]). apply Forall_nil.
  exact I.
Defined.

Lemma run_never_removes_a_field_witness :
  is_Some
    (formData
       ({| activeStepIndex := Js.int 0; activeSubStepIndex := Js.int 0;
           steps := None;
           formData := {["email" := "y"]} ∪ initialFormData |}
        : MultiStepForm string)
     !! "firstName").
Proof.
  apply (run_never_removes_a_field
           [updateFormDataAction {["email" := "y"]}]
           (initialState (Elem := string))).
  - reflexivity.
  - exists "". reflexivity.
Defined.

Lemma next_always_faults_witness :
  multiStepFormReducer
    ({| activeStepIndex := Js.int 2; activeSubStepIndex := Js.int 0;
        steps := None; formData := initialFormData |}
     : MultiStepForm string)
    nextAction
  = Throw TypeError.
Proof.
  apply (next_always_faults_from_initialState
           [gotoAction 2]
           ({| activeStepIndex := Js.int 2; activeSubStepIndex := Js.int 0;
               steps := None; formData := initialFormData |}
            : MultiStepForm string)
           {| Action.type := Some Types.next; Action.index := Undefined;
              Action.fields := None; Action.payload := None |}).
  - reflexivity.
  - reflexivity.
Defined.

Lemma run_keeps_substep_in_range_witness :
  substep_in_range (at_position scenario_steps initialFormData 1 1) = true.
Proof.
  apply (run_keeps_substep_in_range
           [nextAction; nextAction]
           (at_position scenario_steps initialFormData 0 0)).
  - reflexivity.
  - reflexivity.
Defined.

Lemma position_designates_a_unit_witness :
  ∃ unit, Js.index ["B1"; "B2"] (Js.int 1) = Some unit
          ∧ unit ∈ ["B1"; "B2"].
Proof.
  apply (position_designates_a_unit_while_in_step_list
           [nextAction; nextAction] scenario_steps initialFormData
           (at_position scenario_steps initialFormData 1 1) ["B1"; "B2"]).
  - reflexivity.
  - reflexivity.
  - discriminate.
Defined.

Lemma advance_leaves_the_form_witness :
  ∃ i j,
    run (replicate 3 nextAction)
      (at_position scenario_steps initialFormData 0 0)
    = Normal (at_position scenario_steps initialFormData i j)
    ∧ 0 ≤ i < Js.len scenario_steps.
Proof.
  apply (proj2 (advance_leaves_the_form_after_all_units
                  scenario_steps initialFormData) 3%nat).
  unfold units, scenario_steps. cbn [foldr length Nat.max Nat.add]. lia.
Defined.

Lemma advance_reaches_the_units_witness :
  ∃ i j substeps,
    run (replicate 2 nextAction)
      (at_position scenario_steps initialFormData 0 0)
    = Normal (at_position scenario_steps initialFormData i j)
    ∧ Js.index scenario_steps (Js.int i) = Some substeps
    ∧ Js.index substeps (Js.int j) = Some "B2".
Proof.
  apply (advance_reaches_the_units_in_order
           scenario_steps initialFormData 2 "B2").
  - repeat (apply Forall_cons; split; [discriminate|]). apply Forall_nil.
    exact I.
  - reflexivity.
Defined.

Lemma update_commutes_witness :
  run [updateFormDataAction {["city" := "Pune"]}; gotoAction 2]
    (at_position scenario_steps initialFormData 0 0)
  = run [gotoAction 2; updateFormDataAction {["city" := "Pune"]}]
      (at_position scenario_steps initialFormData 0 0).
Proof.
  apply (update_commutes_with_navigation
           (at_position scenario_steps initialFormData 0 0)
           {["city" := "Pune"]}
           {| Action.type := Some Types.goto; Action.index := Js.int 2;
              Action.fields := None; Action.payload := None |}).
  reflexivity.
Defined.

Lemma advance_never_leaves_witness :
  run (replicate 3 nextAction)
    (at_position scenario_steps initialFormData 1 2)
  = Normal (at_position scenario_steps initialFormData 1 (2 + Z.of_nat 3)).
Proof.
  apply (advance_never_leaves_a_step_once_past_its_end
           scenario_steps initialFormData 1 2 ["B1"; "B2"] 3).
  - reflexivity.
  - reflexivity.
  - unfold Js.len. cbn [length]. lia.
  - reflexivity.
Defined.

(** Three retreats from step 1 of the scenario end on step -2. *)
Lemma retreat_does_not_stop_at_zero_witness :
  run (replicate 3 prevAction)
    (at_position scenario_steps initialFormData 1 1)
  = Normal (at_position scenario_steps initialFormData (1 - Z.of_nat 3) 0).
Proof.
  apply (retreat_does_not_stop_at_zero
           2 (Js.int 1) (Some scenario_steps) initialFormData 1).
  - reflexivity.
  - reflexivity.
Defined.
